(** * tslua_add_language: registration of a tree-sitter parser library

    A shallow embedding of [tslua_add_language] from
    [testfiles/example.cpp], the C function that the complexity counter of
    kokwame.nvim is exercised on, together with the parts of the Lua C API,
    of libc and of the dynamic loader it calls.

    Layout: C strings and buffers, Lua values and the Lua stack, the
    program state and its monad, the function itself, then the theorems. *)

From Stdlib Require Import ZArith Ascii String.
From stdpp Require Import base option list gmap strings pretty.

Local Open Scope Z_scope.

(** ** C strings and byte buffers *)

(** Text is [string]; raw memory is [list ascii].  A [const char *] is
    [option string], [None] being the null pointer. *)

Definition NUL : ascii := Ascii.zero.

(** The bytes a C reader sees at the start of [mem]: everything before
    the first NUL. *)
Fixpoint c_bytes (mem : list ascii) : list ascii :=
  match mem with
  | [] => []
  | c :: rest => if Ascii.eqb c NUL then [] else c :: c_bytes rest
  end.

(** The C view of a text that may hold embedded NULs. *)
Definition c_str (s : string) : string :=
  string_of_list_ascii (c_bytes (list_ascii_of_string s)).

(** Reading the C string stored at the start of a buffer. *)
Definition read_c_str (mem : list ascii) : string :=
  string_of_list_ascii (c_bytes mem).

(** [mem[off] = b0; mem[off+1] = b1; ...], one byte at a time. *)
Fixpoint store_bytes (mem : list ascii) (off : nat) (bs : list ascii)
  : list ascii :=
  match bs with
  | [] => mem
  | b :: bs' => store_bytes (<[off := b]> mem) (S off) bs'
  end.

(** The expansion of a format ["<pre>%s"]: the [%s] conversion copies its
    argument up to the first NUL. *)
Definition format_s (pre arg : string) : list ascii :=
  list_ascii_of_string pre ++ c_bytes (list_ascii_of_string arg).

(** [snprintf(mem, size, ...)] once the format is expanded to [text]: at
    most [size - 1] bytes of [text] are stored, then a NUL; nothing is
    stored when [size] is 0.  The value returned is the length the whole
    text would have needed. *)
Definition snprintf (mem : list ascii) (size : nat) (text : list ascii)
  : list ascii * Z :=
  (match size with
   | O => mem
   | S k => store_bytes mem 0 (take k text ++ [NUL])
   end,
   Z.of_nat (length text)).

Definition BUFSIZE : nat := 128.

(** Lines 22-23: [symbol_buf] filled from [lang_name]. *)
Definition derive_symbol (symbol_buf : list ascii) (lang_name : string)
  : list ascii * Z :=
  snprintf symbol_buf BUFSIZE (format_s "tree_sitter_" lang_name).

(** ** The host: what the function is compiled and linked against *)

(** [uv_lib_t]: the library handle and the loader's last error text. *)
Record uv_lib_t := {
  handle : Z;                 (* void *handle *)
  errmsg : option string;     (* char *errmsg, NULL when there is none *)
}.

(** The declarations the source takes from its headers.  The source file
    defines none of them, so the development is parametric in them. *)
Class Host := {
  (** [lua_Number] and its conversion to text ([lua_tostring] on a number). *)
  lua_Number : Type;
  lua_number2str : lua_Number → string;
  (** The state of the dynamic loader, and [uv_dlopen(path, &lib)]: the
      value returned, the [lib] it fills and the new loader state. *)
  dl_world : Type;
  uv_dlopen : option string → dl_world → Z * uv_lib_t * dl_world;
  (** [uv_disclose(&lib)], the release call of the loader-failure path. *)
  uv_disclose : uv_lib_t → dl_world → dl_world;
  (** The capacity of the global buffer [IObuff]. *)
  IOSIZE : nat;
  (** The value of the multi-character literal ['Hello'], an [int] whose
      value is implementation-defined. *)
  Hello : Z;
}.

(** [uv_dlerror(&lib)]: the stored error text, or a fixed text. *)
Definition uv_dlerror (lib : uv_lib_t) : string :=
  match errmsg lib with
  | Some msg => msg
  | None => "no error"
  end.

(** [int] arithmetic: 32 bits, two's complement. *)
Definition int_wrap (z : Z) : Z := (z + 2 ^ 31) `mod` 2 ^ 32 - 2 ^ 31.

Section Embedding.
Context `{host : Host}.

(** ** Lua values and the Lua stack *)

Inductive lua_value :=
| LNil
| LBoolean (b : bool)
| LLightUserdata (p : Z)
| LNumber (n : lua_Number)
| LString (s : string)
| LTable (ref : Z)
| LFunction (ref : Z)
| LUserdata (ref : Z)
| LThread (ref : Z).

(** The stack of the running C function: index 1 is the first argument,
    index -1 the top. *)
Definition lua_stack := list lua_value.

Definition lua_gettop (L : lua_stack) : Z := Z.of_nat (length L).

(** The slot an acceptable index names, if it names one ([index2adr],
    without the pseudo-indices). *)
Definition index2slot (L : lua_stack) (idx : Z) : option nat :=
  if 0 <? idx then
    if idx <=? lua_gettop L then Some (Z.to_nat (idx - 1)) else None
  else if (idx <? 0) && (- idx <=? lua_gettop L) then
    Some (Z.to_nat (lua_gettop L + idx))
  else None.

Definition index2value (L : lua_stack) (idx : Z) : option lua_value :=
  slot ← index2slot L idx; L !! slot.

(** [lua_isstring]: 1 for a string or a number, 0 otherwise, also for an
    index above the top. *)
Definition lua_isstring (L : lua_stack) (idx : Z) : bool :=
  match index2value L idx with
  | Some (LString _) | Some (LNumber _) => true
  | _ => false
  end.

(** The text [lua_tostring] returns for a value: the bytes of a string up
    to its first NUL as C sees them, a number converted, NULL otherwise. *)
Definition value_tostring (v : lua_value) : option string :=
  match v with
  | LString s => Some (c_str s)
  | LNumber n => Some (c_str (lua_number2str n))
  | _ => None
  end.

(** [lua_tostring] also turns a number into a string in its stack slot. *)
Definition value_tostring_slot (v : lua_value) : lua_value :=
  match v with
  | LNumber n => LString (lua_number2str n)
  | _ => v
  end.

(** ** Program state *)

Inductive cout_item :=
| CoutInt (z : Z)
| CoutStr (s : string).

(** The calls to the loader and the Lua errors raised, in the order they
    are made. *)
Inductive event :=
| EvDlopen (path : option string)
| EvDlerror (lib : uv_lib_t)
| EvDisclose (lib : uv_lib_t)
| EvLuaError (v : lua_value).

Definition is_loader_event (e : event) : bool :=
  match e with
  | EvDlopen _ | EvDlerror _ | EvDisclose _ => true
  | EvLuaError _ => false
  end.

Record State := {
  L : lua_stack;                 (* the arguments of the call *)
  L_where : string;              (* luaL_where(L, 1): position of the caller *)
  langs : gmap string Z;         (* the registry: name -> language pointer *)
  IObuff : list ascii;           (* the global scratch buffer *)
  frame : list ascii;            (* memory from &symbol_buf[0] upwards *)
  dl : dl_world;                 (* the dynamic loader *)
  events : list event;           (* calls made so far *)
  cout : list cout_item;         (* what was written to cout *)
}.

Definition set_L (f : lua_stack → lua_stack) (st : State) : State :=
  {| L := f (L st); L_where := L_where st; langs := langs st;
     IObuff := IObuff st; frame := frame st; dl := dl st;
     events := events st; cout := cout st |}.

Definition set_IObuff (f : list ascii → list ascii) (st : State) : State :=
  {| L := L st; L_where := L_where st; langs := langs st;
     IObuff := f (IObuff st); frame := frame st; dl := dl st;
     events := events st; cout := cout st |}.

Definition set_frame (f : list ascii → list ascii) (st : State) : State :=
  {| L := L st; L_where := L_where st; langs := langs st;
     IObuff := IObuff st; frame := f (frame st); dl := dl st;
     events := events st; cout := cout st |}.

Definition set_dl (f : dl_world → dl_world) (st : State) : State :=
  {| L := L st; L_where := L_where st; langs := langs st;
     IObuff := IObuff st; frame := frame st; dl := f (dl st);
     events := events st; cout := cout st |}.

Definition log (e : event) (st : State) : State :=
  {| L := L st; L_where := L_where st; langs := langs st;
     IObuff := IObuff st; frame := frame st; dl := dl st;
     events := events st ++ [e]; cout := cout st |}.

Definition put_cout (items : list cout_item) (st : State) : State :=
  {| L := L st; L_where := L_where st; langs := langs st;
     IObuff := IObuff st; frame := frame st; dl := dl st;
     events := events st; cout := cout st ++ items |}.

(** ** The monad of C statements *)

(** How a call ends. *)
Inductive outcome :=
| Returned (n : Z)            (* return n; *)
| Raised (v : lua_value)      (* lua_error: a Lua error with value v *)
| NullDeref                   (* a null pointer read as a C string *)
| FellOffEnd.                 (* the closing brace reached, no value returned *)

Inductive step (A : Type) :=
| Next (a : A) (st : State)
| Exit (o : outcome) (st : State)
| OutOfFuel.
Arguments Next {A} a st.
Arguments Exit {A} o st.
Arguments OutOfFuel {A}.

Definition M (A : Type) : Type := State → step A.

#[global] Instance M_ret : MRet M := λ A a st, Next a st.
#[global] Instance M_bind : MBind M := λ A B f m st,
  match m st with
  | Next a st' => f a st'
  | Exit o st' => Exit o st'
  | OutOfFuel => OutOfFuel
  end.

Definition gets {A} (f : State → A) : M A := λ st, Next (f st) st.
Definition modify (f : State → State) : M unit := λ st, Next tt (f st).
Definition exit {A} (o : outcome) : M A := λ st, Exit o st.
Definition skip : M unit := mret tt.

(** ** The calls the function makes *)

(** [lua_pushstring(L, s)]. *)
Definition lua_pushstring (s : string) : M unit :=
  modify (set_L (λ stk, stk ++ [LString s])).

(** [lua_error(L)]: raises the value on top of the stack. *)
Definition lua_error {A} : M A :=
  stk ← gets L;
  let v := default LNil (last stk) in
  modify (log (EvLuaError v));;
  exit (Raised v).

(** [luaL_error(L, msg)] for a format without conversions: the position
    of the caller and [msg], concatenated, raised as the error value. *)
Definition luaL_error {A} (msg : string) : M A :=
  pos ← gets L_where;
  lua_pushstring (pos +:+ msg);;
  lua_error.

(** [lua_tostring(L, idx)]. *)
Definition lua_tostring (idx : Z) : M (option string) :=
  stk ← gets L;
  match index2slot stk idx with
  | Some slot =>
      match stk !! slot with
      | Some v =>
          modify (set_L (λ stk, <[slot := value_tostring_slot v]> stk));;
          mret (value_tostring v)
      | None => mret None
      end
  | None => mret None
  end.

(** [pmap_has(cstr_t)(langs, key)]: the key is hashed and compared as a
    C string, so it is read. *)
Definition pmap_has_cstr (key : option string) : M bool :=
  match key with
  | None => exit NullDeref
  | Some k => reg ← gets langs; mret (bool_decide (is_Some (reg !! k)))
  end.

(** The argument of a [%s] conversion is read as a C string. *)
Definition c_string_arg (s : option string) : M string :=
  match s with
  | None => exit NullDeref
  | Some s => mret s
  end.

Definition uv_dlopen_call (path : option string) : M (Z * uv_lib_t) :=
  w ← gets dl;
  let '(rc, lib, w') := uv_dlopen path w in
  modify (set_dl (λ _, w'));;
  modify (log (EvDlopen path));;
  mret (rc, lib).

Definition uv_dlerror_call (lib : uv_lib_t) : M string :=
  modify (log (EvDlerror lib));;
  mret (uv_dlerror lib).

Definition uv_disclose_call (lib : uv_lib_t) : M unit :=
  modify (set_dl (uv_disclose lib));;
  modify (log (EvDisclose lib)).

(** ** The function *)

(** Lines 17-19, [for (int i=0; i++; i<10) { cout << 'Hello' << "\n"; }],
    entered with the value of [i]: the condition is [i++], the third
    expression [i<10] is evaluated for nothing. *)
Fixpoint hello_loop (fuel : nat) (i : Z) : M unit :=
  match fuel with
  | O => λ _, OutOfFuel
  | S fuel' =>
      let cond := i in
      let i := int_wrap (i + 1) in
      if cond =? 0 then skip
      else
        modify (put_cout [CoutInt Hello; CoutStr (String "010" "")]);;
        hello_loop fuel' i
  end.

Definition tslua_add_language (fuel : nat) : M Z :=
  stk ← gets L;
  (if ((lua_gettop stk <? 2) || negb (lua_isstring stk 1))
        && negb (lua_isstring stk 2)
   then luaL_error "string expected"
   else skip);;
  path ← lua_tostring 1;
  lang_name ← lua_tostring 2;
  present ← pmap_has_cstr lang_name;
  (if present : bool then exit (Returned 0) else skip);;
  hello_loop fuel 0;;
  name ← c_string_arg lang_name;
  symbol_buf ← gets frame;
  modify (set_frame (λ _, (derive_symbol symbol_buf name).1));;
  opened ← uv_dlopen_call path;
  let '(rc, lib) := opened : Z * uv_lib_t in
  (if negb (rc =? 0) then
     err ← uv_dlerror_call lib;
     modify (set_IObuff (λ buf,
       (snprintf buf IOSIZE
          (format_s "Failed to load parser: uv_dlopen: " err)).1));;
     uv_disclose_call lib;;
     msg ← gets (λ st, read_c_str (IObuff st));
     lua_pushstring msg;;
     lua_error
   else skip);;
  exit FellOffEnd.

(** The argument check of line 6, as a predicate on the stack. *)
Definition rejects (stk : lua_stack) : bool :=
  ((lua_gettop stk <? 2) || negb (lua_isstring stk 1))
  && negb (lua_isstring stk 2).

(** The stack once [path] and [lang_name] were read from it. *)
Definition read_args (v1 v2 : lua_value) (rest : lua_stack) : lua_stack :=
  value_tostring_slot v1 :: value_tostring_slot v2 :: rest.

(** [m] leaves the registry as it found it, however it ends. *)
Definition keeps_langs {A} (m : M A) : Prop :=
  ∀ st, match m st with
        | Next _ st' | Exit _ st' => langs st' = langs st
        | OutOfFuel => True
        end.

End Embedding.

Arguments Next {host A} a st.
Arguments Exit {host A} o st.
Arguments OutOfFuel {host A}.

(** A call from Lua: the function runs on a fresh stack that holds the
    arguments. *)
Definition call `{host : Host} (fuel : nat) (args : lua_stack) : M Z :=
  λ st, tslua_add_language fuel (set_L (λ _, args) st).

(** ** Observations on a run *)

Section Observers.
Context `{host : Host}.

(** The calls of [uv_dlopen] among the calls made. *)
Definition is_dlopen (e : event) : bool :=
  match e with
  | EvDlopen _ => true
  | _ => false
  end.

(** [m] comes to an end, and leaves the registry and [cout] as they
    were. *)
Definition ends_quietly {A} (m : M A) : Prop :=
  ∀ st, match m st with
        | Next _ st' | Exit _ st' =>
            langs st' = langs st ∧ cout st' = cout st
        | OutOfFuel => False
        end.

(** [m] leaves the function, with the registry and [cout] as they were. *)
Definition exits_quietly {A} (m : M A) : Prop :=
  ∀ st, ∃ o st', m st = Exit o st'
                 ∧ langs st' = langs st ∧ cout st' = cout st.

(** Two states that differ in the Lua stack at most. *)
Definition same_but_stack (st1 st2 : State) : Prop :=
  set_L (λ _, L st2) st1 = st2.

End Observers.

(** ** A host for the examples *)

Module Stub.

(** A loader that knows one missing file and opens everything else;
    its state is the list of the handles that are open. *)
Definition dlopen (path : option string) (w : list Z)
  : Z * uv_lib_t * list Z :=
  if bool_decide (path = Some "/no/such/file.so") then
    (-1, {| handle := 0; errmsg := Some "file not found" |}, w)
  else
    let h := 4096 + Z.of_nat (length w) in
    (0, {| handle := h; errmsg := None |}, h :: w).

Definition disclose (lib : uv_lib_t) (w : list Z) : list Z :=
  filter (λ h, h ≠ handle lib) w.

(** Integers for [lua_Number], 1025 bytes of [IObuff], and ['Hello']
    as GCC evaluates it (the last four characters, base 256). *)
Definition host : Host :=
  {| lua_Number := Z;
     lua_number2str := pretty;
     dl_world := list Z;
     uv_dlopen := dlopen;
     uv_disclose := disclose;
     IOSIZE := 1025;
     Hello := 1701604463 |}.

#[local] Existing Instance host.

(** The state of a process that has registered nothing yet. *)
Definition start : @State host :=
  {| L := [];
     L_where := "";
     langs := ∅;
     IObuff := replicate 1025 NUL;
     frame := replicate 160 "?"%char;
     dl := [];
     events := [];
     cout := [] |}.

(** The same process with ["python"] in the registry. *)
Definition with_python : @State host :=
  {| L := [];
     L_where := "";
     langs := {[ "python" := 8192 ]};
     IObuff := replicate 1025 NUL;
     frame := replicate 160 "?"%char;
     dl := [];
     events := [];
     cout := [] |}.

(** The state [start] turns into when a call leaves [stk] on the stack
    and [symbol] in [symbol_buf], having made the calls [ev] and left the
    handles [opened] open. *)
Definition after (stk : @lua_stack host) (symbol : string)
    (ev : list event) (opened : list Z) : @State host :=
  {| L := stk;
     L_where := "";
     langs := ∅;
     IObuff := replicate 1025 NUL;
     frame := list_ascii_of_string symbol
              ++ NUL :: replicate (159 - String.length symbol) "?"%char;
     dl := opened;
     events := ev;
     cout := [] |}.

(** The arguments of [register("/usr/lib/libtspython.so", "python")]. *)
Definition python_args : @lua_stack host :=
  [LString "/usr/lib/libtspython.so"; LString "python"].

(** A name of 120 characters: with the prefix it takes 132. *)
Definition long_name : string :=
  string_of_list_ascii (replicate 120 "a"%char).

End Stub.

(** *** Facts about buffers *)

(** A size of 3 leaves room for two characters and the NUL; the bytes
    above stay, and the length asked for is returned. *)
Example snprintf_cuts :
  snprintf (list_ascii_of_string "?????") 3 (list_ascii_of_string "hello")
  = (list_ascii_of_string "he" ++ NUL :: list_ascii_of_string "??", 5).
Proof. reflexivity. Qed.

(** C code sees a Lua string up to its first NUL. *)
Example c_str_cuts : c_str (String "p" (String "y" (String NUL "thon"))) = "py".
Proof. reflexivity. Qed.

Definition nul_free (bs : list ascii) : Prop := NUL ∉ bs.

Lemma c_bytes_nul_free bs : nul_free (c_bytes bs).
Proof.
  unfold nul_free. induction bs as [|c bs IH]; simpl.
  - apply not_elem_of_nil.
  - destruct (Ascii.eqb c NUL) eqn:E.
    + apply not_elem_of_nil.
    + apply not_elem_of_cons. split; [|exact IH].
      intros Hc. subst c. by rewrite Ascii.eqb_refl in E.
Qed.

Lemma c_bytes_stop bs rest :
  nul_free bs → c_bytes (bs ++ NUL :: rest) = bs.
Proof.
  unfold nul_free. induction bs as [|c bs IH]; simpl; intros Hnf.
  - done.
  - apply not_elem_of_cons in Hnf as [Hc Hbs].
    destruct (Ascii.eqb c NUL) eqn:E.
    + apply Ascii.eqb_eq in E. congruence.
    + by rewrite IH.
Qed.

Lemma c_bytes_id bs : nul_free bs → c_bytes bs = bs.
Proof.
  unfold nul_free. induction bs as [|c bs IH]; simpl; intros Hnf; [done|].
  apply not_elem_of_cons in Hnf as [Hc Hbs].
  destruct (Ascii.eqb c NUL) eqn:E.
  - apply Ascii.eqb_eq in E. congruence.
  - by rewrite IH.
Qed.

Lemma nul_free_app bs1 bs2 :
  nul_free bs1 → nul_free bs2 → nul_free (bs1 ++ bs2).
Proof. unfold nul_free. rewrite elem_of_app. tauto. Qed.

Lemma nul_free_take k bs : nul_free bs → nul_free (take k bs).
Proof.
  unfold nul_free. intros Hnf Hin. apply Hnf.
  rewrite <- (take_drop k bs). apply elem_of_app. by left.
Qed.

Lemma store_bytes_length mem off bs :
  length (store_bytes mem off bs) = length mem.
Proof.
  revert mem off. induction bs as [|b bs IH]; intros mem off; simpl; [done|].
  by rewrite IH, length_insert.
Qed.

(** Storing [bs] at [off] inside [mem] replaces exactly the bytes
    [off .. off + length bs - 1]. *)
Lemma store_bytes_spec mem off bs :
  (off + length bs ≤ length mem)%nat →
  store_bytes mem off bs = take off mem ++ bs ++ drop (off + length bs) mem.
Proof.
  revert mem off. induction bs as [|b bs IH]; intros mem off Hlen; simpl in *.
  - rewrite Nat.add_0_r. by rewrite take_drop.
  - rewrite IH by (rewrite length_insert; lia).
    rewrite (take_S_r _ _ b) by (apply list_lookup_insert_eq; lia).
    rewrite take_insert_ge by lia.
    rewrite drop_insert_lt by lia.
    rewrite <- app_assoc. simpl.
    by replace (off + S (length bs))%nat with (S (off + length bs)) by lia.
Qed.

(** [snprintf] into a buffer of [size] bytes followed by [rest]: the
    buffer becomes the truncated text, a NUL and its old tail; [rest] is
    not touched. *)
Lemma snprintf_frame buf rest size text :
  length buf = size → (0 < size)%nat →
  (snprintf (buf ++ rest) size text).1 =
    (take (size - 1) text ++ [NUL]
       ++ drop (S (length (take (size - 1) text))) buf) ++ rest.
Proof.
  intros Hlen Hpos. unfold snprintf. simpl.
  destruct size as [|k]; [lia|].
  replace (S k - 1)%nat with k by lia.
  assert (Htk : (length (take k text) ≤ k)%nat) by (rewrite length_take; lia).
  rewrite store_bytes_spec.
  2:{ rewrite !length_app. simpl. lia. }
  simpl. rewrite length_app. simpl.
  rewrite <- !app_assoc. f_equal. simpl. f_equal.
  rewrite drop_app_le by lia. f_equal. f_equal. lia.
Qed.


(** *** Facts about C strings *)

Lemma list_ascii_of_string_app (a b : string) :
  list_ascii_of_string (a +:+ b)
  = list_ascii_of_string a ++ list_ascii_of_string b.
Proof. induction a as [|c a IH]; simpl; [done | by rewrite IH]. Qed.

Lemma c_bytes_idem bs : c_bytes (c_bytes bs) = c_bytes bs.
Proof. apply c_bytes_id, c_bytes_nul_free. Qed.

Lemma c_str_idem s : c_str (c_str s) = c_str s.
Proof.
  unfold c_str. by rewrite list_ascii_of_string_of_list_ascii, c_bytes_idem.
Qed.

Lemma c_str_bytes s : list_ascii_of_string (c_str s) = c_bytes (list_ascii_of_string s).
Proof. unfold c_str. by rewrite list_ascii_of_string_of_list_ascii. Qed.

(** A format ["<pre>%s"] expands to the prefix followed by the C string. *)
Lemma format_s_app pre arg :
  format_s pre arg = list_ascii_of_string (pre +:+ c_str arg).
Proof. unfold format_s. by rewrite list_ascii_of_string_app, c_str_bytes. Qed.

Lemma format_s_nul_free pre arg :
  nul_free (list_ascii_of_string pre) → nul_free (format_s pre arg).
Proof. intros Hpre. apply nul_free_app; [done | apply c_bytes_nul_free]. Qed.

Lemma symbol_prefix_nul_free : nul_free (list_ascii_of_string "tree_sitter_").
Proof. unfold nul_free. apply (bool_decide_unpack _). by vm_compute. Qed.

Lemma failure_prefix_nul_free :
  nul_free (list_ascii_of_string "Failed to load parser: uv_dlopen: ").
Proof. unfold nul_free. apply (bool_decide_unpack _). by vm_compute. Qed.

(** What a C reader finds in a buffer of at least [size] bytes after
    [snprintf]: the text, cut to [size - 1] bytes. *)
Lemma snprintf_read mem size text :
  (0 < size)%nat → (size ≤ length mem)%nat → nul_free text →
  read_c_str (snprintf mem size text).1
  = string_of_list_ascii (take (size - 1) text).
Proof.
  intros Hpos Hlen Hnf.
  rewrite <- (take_drop size mem).
  rewrite snprintf_frame; [|by apply length_take_le|done].
  unfold read_c_str. rewrite <- app_assoc. simpl.
  by rewrite c_bytes_stop by by apply nul_free_take.
Qed.

(** ** Running the function *)

#[local] Arguments derive_symbol : simpl never.
#[local] Arguments snprintf : simpl never.
#[local] Arguments format_s : simpl never.
#[local] Arguments read_c_str : simpl never.
#[local] Arguments index2slot : simpl never.
#[local] Arguments lua_isstring : simpl never.
#[local] Arguments lua_gettop : simpl never.
#[local] Arguments value_tostring : simpl never.
#[local] Arguments value_tostring_slot : simpl never.
#[local] Arguments uv_dlerror : simpl never.
#[local] Arguments last : simpl never.

(** Unfolds the monad and the calls that only move data around. *)
Ltac run :=
  repeat (progress
    (unfold mbind, mret, M_bind, M_ret, gets, modify, exit, skip,
       lua_error, lua_pushstring, luaL_error, lua_tostring, pmap_has_cstr,
       c_string_arg, uv_dlopen_call, uv_dlerror_call, uv_disclose_call;
     cbn)).

Section Runs.
Context `{host : Host}.

Implicit Types (st : State) (v : lua_value) (rest : lua_stack).

(** *** The stack of a call with two arguments or more *)

Lemma gettop_two v1 v2 rest : (lua_gettop (v1 :: v2 :: rest) <? 2) = false.
Proof. unfold lua_gettop. simpl length. apply Z.ltb_ge. lia. Qed.

Lemma index2slot_first v1 v2 rest :
  index2slot (v1 :: v2 :: rest) 1 = Some 0%nat.
Proof.
  unfold index2slot, lua_gettop. simpl length.
  change (0 <? 1) with true. cbv iota.
  rewrite (proj2 (Z.leb_le _ _)); [done | lia].
Qed.

Lemma index2slot_second v1 v2 rest :
  index2slot (v1 :: v2 :: rest) 2 = Some 1%nat.
Proof.
  unfold index2slot, lua_gettop. simpl length.
  change (0 <? 2) with true. cbv iota.
  rewrite (proj2 (Z.leb_le _ _)); [done | lia].
Qed.

Lemma isstring_second v1 v2 rest name :
  value_tostring v2 = Some name → lua_isstring (v1 :: v2 :: rest) 2 = true.
Proof.
  intros Hn. unfold lua_isstring, index2value.
  rewrite index2slot_second. simpl. by destruct v2.
Qed.

Lemma isstring_first_None v1 v2 rest :
  value_tostring v1 = None ↔ lua_isstring (v1 :: v2 :: rest) 1 = false.
Proof.
  unfold lua_isstring, index2value. rewrite index2slot_first. simpl.
  by destruct v1.
Qed.

Lemma isstring_second_None v1 v2 rest :
  value_tostring v2 = None ↔ lua_isstring (v1 :: v2 :: rest) 2 = false.
Proof.
  unfold lua_isstring, index2value. rewrite index2slot_second. simpl.
  by destruct v2.
Qed.

(** Index 2 names no value when fewer than two arguments were passed. *)
Lemma isstring_above_top stk :
  lua_gettop stk < 2 → lua_isstring stk 2 = false.
Proof.
  unfold lua_gettop, lua_isstring, index2value, index2slot.
  intros Htop. change (0 <? 2) with true. cbv iota.
  rewrite (proj2 (Z.leb_gt _ _)); [done | unfold lua_gettop; lia].
Qed.

(** The text [lua_tostring] hands out is a C string. *)
Lemma value_tostring_c_str v name :
  value_tostring v = Some name → c_str name = name.
Proof.
  destruct v; unfold value_tostring; intros [= <-]; apply c_str_idem.
Qed.

(** *** The four ways through the function *)

Lemma State_ext st1 st2 :
  L st1 = L st2 → L_where st1 = L_where st2 → langs st1 = langs st2 →
  IObuff st1 = IObuff st2 → frame st1 = frame st2 → dl st1 = dl st2 →
  events st1 = events st2 → cout st1 = cout st2 → st1 = st2.
Proof. destruct st1, st2; simpl; intros; by subst. Qed.

(** With two arguments or more, line 6 refuses the call only when
    neither of the first two is a string or a number. *)
Lemma rejects_two_arguments v1 v2 rest :
  rejects (v1 :: v2 :: rest) = true
  ↔ value_tostring v1 = None ∧ value_tostring v2 = None.
Proof.
  unfold rejects. rewrite gettop_two, isstring_first_None,
    (isstring_second_None v1 v2 rest). simpl.
  rewrite andb_true_iff, !negb_true_iff. done.
Qed.

Lemma run_rejected st fuel :
  rejects (L st) = true →
  tslua_add_language fuel st =
    let v := LString (L_where st +:+ "string expected") in
    Exit (Raised v) (log (EvLuaError v) (set_L (λ stk, stk ++ [v]) st)).
Proof.
  unfold rejects. intros Hrej. unfold tslua_add_language. run.
  rewrite Hrej. run. by rewrite last_snoc.
Qed.

Lemma run_registered st v1 v2 rest name fuel :
  L st = v1 :: v2 :: rest →
  value_tostring v2 = Some name →
  is_Some (langs st !! name) →
  tslua_add_language fuel st =
    Exit (Returned 0) (set_L (λ _, read_args v1 v2 rest) st).
Proof.
  intros HL Hn Hreg.
  destruct st as [stk wh reg iob fr w ev co]. simpl in *. subst stk.
  unfold tslua_add_language. run.
  rewrite (isstring_second _ _ _ _ Hn), andb_false_r. run.
  rewrite index2slot_first. run. rewrite index2slot_second. run.
  rewrite Hn. run. by rewrite bool_decide_true by done.
Qed.

(** Line 17 with [i = 0]: the condition [i++] is 0, the loop is left. *)
Lemma hello_loop_zero fuel st : hello_loop (S fuel) 0 st = Next () st.
Proof. reflexivity. Qed.

Lemma run_load_ok st v1 v2 rest name lib w' fuel :
  L st = v1 :: v2 :: rest →
  value_tostring v2 = Some name →
  langs st !! name = None →
  uv_dlopen (value_tostring v1) (dl st) = (0, lib, w') →
  tslua_add_language (S fuel) st =
    Exit FellOffEnd
      {| L := read_args v1 v2 rest;
         L_where := L_where st;
         langs := langs st;
         IObuff := IObuff st;
         frame := (derive_symbol (frame st) name).1;
         dl := w';
         events := events st ++ [EvDlopen (value_tostring v1)];
         cout := cout st |}.
Proof.
  intros HL Hn Hreg Hopen.
  destruct st as [stk wh reg iob fr w ev co]. simpl in *. subst stk.
  unfold tslua_add_language. run.
  rewrite (isstring_second _ _ _ _ Hn), andb_false_r. run.
  rewrite index2slot_first. run. rewrite index2slot_second. run.
  rewrite Hn. run.
  rewrite bool_decide_false by (rewrite Hreg; by intros [? ?]). run.
  by rewrite Hopen.
Qed.

Lemma run_load_failed st v1 v2 rest name rc lib w' fuel :
  L st = v1 :: v2 :: rest →
  value_tostring v2 = Some name →
  langs st !! name = None →
  uv_dlopen (value_tostring v1) (dl st) = (rc, lib, w') →
  rc ≠ 0 →
  tslua_add_language (S fuel) st =
    let buf := (snprintf (IObuff st) IOSIZE
                  (format_s "Failed to load parser: uv_dlopen: "
                     (uv_dlerror lib))).1 in
    let v := LString (read_c_str buf) in
    Exit (Raised v)
      {| L := read_args v1 v2 rest ++ [v];
         L_where := L_where st;
         langs := langs st;
         IObuff := buf;
         frame := (derive_symbol (frame st) name).1;
         dl := uv_disclose lib w';
         events := events st ++ [EvDlopen (value_tostring v1); EvDlerror lib;
                                 EvDisclose lib; EvLuaError v];
         cout := cout st |}.
Proof.
  intros HL Hn Hreg Hopen Hrc.
  destruct st as [stk wh reg iob fr w ev co]. simpl in *. subst stk.
  unfold tslua_add_language. run.
  rewrite (isstring_second _ _ _ _ Hn), andb_false_r. run.
  rewrite index2slot_first. run. rewrite index2slot_second. run.
  rewrite Hn. run.
  rewrite bool_decide_false by (rewrite Hreg; by intros [? ?]). run.
  rewrite Hopen. run.
  rewrite (proj2 (Z.eqb_neq rc 0) Hrc). run.
  change (value_tostring_slot v1 :: value_tostring_slot v2 ::
          rest ++ [?x]) with (read_args v1 v2 rest ++ [x]).
  rewrite last_snoc. cbn. f_equal.
  apply State_ext; cbn; try done.
  by rewrite <- !app_assoc.
Qed.

End Runs.

(** ** The registry is only ever read *)

Section Registry.
Context `{host : Host}.

Lemma keeps_bind {A B} (m : M A) (f : A → M B) :
  keeps_langs m → (∀ a, keeps_langs (f a)) → keeps_langs (m ≫= f).
Proof.
  intros Hm Hf st. unfold mbind, M_bind.
  specialize (Hm st). destruct (m st) as [a st1|o st1|]; [|done..].
  specialize (Hf a st1). destruct (f a st1); congruence.
Qed.

Lemma keeps_ret {A} (a : A) : keeps_langs (mret a).
Proof. by intros st. Qed.

Lemma keeps_gets {A} (f : State → A) : keeps_langs (gets f).
Proof. by intros st. Qed.

Lemma keeps_exit {A} o : keeps_langs (exit (A := A) o).
Proof. by intros st. Qed.

Lemma keeps_modify (f : State → State) :
  (∀ st, langs (f st) = langs st) → keeps_langs (modify f).
Proof. intros Hf st. apply Hf. Qed.

Lemma keeps_if {A} (b : bool) (m1 m2 : M A) :
  keeps_langs m1 → keeps_langs m2 → keeps_langs (if b then m1 else m2).
Proof. by destruct b. Qed.

Create HintDb keeps.
#[local] Hint Resolve keeps_ret keeps_gets keeps_exit keeps_if : keeps.
#[local] Hint Extern 1 (keeps_langs (modify _)) =>
  (apply keeps_modify; intros; reflexivity) : keeps.
#[local] Hint Extern 2 (keeps_langs (_ ≫= _)) =>
  (apply keeps_bind; [|intros]) : keeps.

Lemma keeps_lua_error {A} : keeps_langs (lua_error (A := A)).
Proof. unfold lua_error. auto with keeps. Qed.

Lemma keeps_luaL_error {A} msg : keeps_langs (luaL_error (A := A) msg).
Proof.
  unfold luaL_error, lua_pushstring. pose proof (@keeps_lua_error A).
  auto 6 with keeps.
Qed.

Lemma keeps_lua_tostring idx : keeps_langs (lua_tostring idx).
Proof.
  unfold lua_tostring. apply keeps_bind; [auto with keeps|]. intros stk.
  destruct (index2slot stk idx) as [slot|]; [|auto with keeps].
  destruct (stk !! slot); auto with keeps.
Qed.

Lemma keeps_hello_loop fuel i : keeps_langs (hello_loop fuel i).
Proof.
  revert i. induction fuel as [|fuel IH]; intros i; simpl; [by intros st|].
  destruct (i =? 0); [apply keeps_ret|]. auto with keeps.
Qed.

Lemma keeps_uv_dlopen_call path : keeps_langs (uv_dlopen_call path).
Proof.
  unfold uv_dlopen_call. apply keeps_bind; [auto with keeps|]. intros w.
  destruct (uv_dlopen path w) as [[rc lib] w']. auto 6 with keeps.
Qed.

(** No call of [tslua_add_language] changes the registry, whatever its
    arguments, the loader and the way it ends. *)
Lemma tslua_add_language_keeps_langs fuel :
  keeps_langs (tslua_add_language fuel).
Proof.
  pose proof (@keeps_lua_error Z). pose proof (@keeps_luaL_error ()).
  pose proof keeps_lua_tostring. pose proof keeps_hello_loop.
  pose proof keeps_uv_dlopen_call.
  unfold tslua_add_language, skip, pmap_has_cstr, c_string_arg,
    uv_dlerror_call, uv_disclose_call, lua_pushstring.
  repeat first
    [ apply keeps_bind; [|intros]
    | apply keeps_if
    | match goal with
      | |- keeps_langs (match ?x with _ => _ end) => destruct x
      end
    | solve [auto with keeps] ].
Qed.

End Registry.

(** ** Properties of a registration call *)

Section Claims.
Context `{host : Host}.

Implicit Types (st : State) (v : lua_value) (rest : lua_stack).

Lemma length_list_ascii_of_string (s : string) :
  length (list_ascii_of_string s) = String.length s.
Proof. induction s as [|c s IH]; simpl; [done | by rewrite IH]. Qed.

(** A call with fewer than two arguments is refused. *)
Lemma too_few_arguments_rejected st fuel :
  lua_gettop (L st) < 2 →
  ∃ st', tslua_add_language fuel st
         = Exit (Raised (LString (L_where st +:+ "string expected"))) st'
       ∧ langs st' = langs st
       ∧ filter is_loader_event (events st')
         = filter is_loader_event (events st).
Proof.
  intros Htop. eexists. split.
  - apply run_rejected. unfold rejects.
    rewrite (isstring_above_top _ Htop), (proj2 (Z.ltb_lt _ _) Htop). done.
  - split; [done|]. simpl. rewrite filter_app. simpl.
    rewrite filter_cons_False by (simpl; tauto).
    by rewrite filter_nil, app_nil_r.
Qed.

(** Where the name is not registered the call gets as far as the loader,
    with the symbol name derived and nothing written to [cout]. *)
Lemma run_unregistered st v1 v2 rest name fuel :
  L st = v1 :: v2 :: rest →
  value_tostring v2 = Some name →
  langs st !! name = None →
  ∃ o st', tslua_add_language (S fuel) st = Exit o st'
         ∧ frame st' = (derive_symbol (frame st) name).1
         ∧ cout st' = cout st.
Proof.
  intros HL Hn Hreg.
  destruct (uv_dlopen (value_tostring v1) (dl st)) as [[rc lib] w'] eqn:Hopen.
  destruct (decide (rc = 0)) as [->|Hrc].
  - eexists _, _. split; [by eapply run_load_ok|done].
  - eexists _, _. split; [by eapply run_load_failed|done].
Qed.

(** C3.  When the name passed as second argument is already a key of the
    registry, the call returns 0 at once: the registry, and so the stored
    handle, is what it was, no call to the loader is made and the loader
    is in the state it was in. *)
Theorem registered_name_returns_at_once st v1 v2 rest name fuel :
  L st = v1 :: v2 :: rest →
  value_tostring v2 = Some name →
  is_Some (langs st !! name) →
  ∃ st', tslua_add_language fuel st = Exit (Returned 0) st'
       ∧ langs st' = langs st
       ∧ events st' = events st
       ∧ dl st' = dl st.
Proof.
  intros HL Hn Hreg. eexists. split; [by eapply run_registered|done].
Qed.

(** C4.  When [uv_dlopen] fails on the path (it returns a value other
    than 0) and [IObuff] has room for two bytes or more, the call raises
    a Lua error whose value is a text that is not empty: the fixed words
    followed by the text of [uv_dlerror], cut to the capacity of
    [IObuff], and uncut when it fits.  The registry is unchanged and has
    no entry for the name. *)
Theorem load_failure_raises_diagnostic st v1 v2 rest name rc lib w' fuel :
  L st = v1 :: v2 :: rest →
  value_tostring v2 = Some name →
  langs st !! name = None →
  uv_dlopen (value_tostring v1) (dl st) = (rc, lib, w') →
  rc ≠ 0 →
  (2 ≤ IOSIZE ≤ length (IObuff st))%nat →
  let text := "Failed to load parser: uv_dlopen: " +:+ c_str (uv_dlerror lib) in
  ∃ msg st',
    tslua_add_language (S fuel) st = Exit (Raised (LString msg)) st'
    ∧ msg = string_of_list_ascii (take (IOSIZE - 1) (list_ascii_of_string text))
    ∧ msg ≠ ""
    ∧ ((String.length text < IOSIZE)%nat → msg = text)
    ∧ langs st' = langs st
    ∧ langs st' !! name = None.
Proof.
  intros HL Hn Hreg Hopen Hrc [Hsize Hbuf] text.
  eexists _, _. split; [by eapply run_load_failed|].
  rewrite snprintf_read;
    [|lia|done|apply format_s_nul_free, failure_prefix_nul_free].
  rewrite format_s_app. fold text.
  split; [done|]. split; [|split; [|done]].
  - destruct (IOSIZE - 1)%nat as [|k] eqn:Hk; [lia|]. by simpl.
  - intros Hfits. rewrite take_ge.
    + apply string_of_list_ascii_of_string.
    + rewrite length_list_ascii_of_string. lia.
Qed.

(** C8.  When [uv_dlopen] fails, the calls made are, in this order:
    [uv_dlopen] on the path, [uv_dlerror] on the library it filled,
    [uv_disclose] on that same library, and only then [lua_error]; the
    loader is left in the state [uv_disclose] produced. *)
Theorem load_failure_releases_before_raising
    st v1 v2 rest name rc lib w' fuel :
  L st = v1 :: v2 :: rest →
  value_tostring v2 = Some name →
  langs st !! name = None →
  uv_dlopen (value_tostring v1) (dl st) = (rc, lib, w') →
  rc ≠ 0 →
  ∃ v st',
    tslua_add_language (S fuel) st = Exit (Raised v) st'
    ∧ events st' = events st ++ [EvDlopen (value_tostring v1); EvDlerror lib;
                                 EvDisclose lib; EvLuaError v]
    ∧ dl st' = uv_disclose lib w'.
Proof.
  intros HL Hn Hreg Hopen Hrc.
  eexists _, _. split; [by eapply run_load_failed|done].
Qed.

(** C5.  The symbol name left in [symbol_buf] is ["tree_sitter_"]
    followed by the name, cut to the 127 characters the buffer has room
    for: the two texts concatenated whenever that is shorter than 128
    characters, as ["tree_sitter_python"] is for ["python"]. *)
Theorem symbol_name_is_prefix_and_name st v1 v2 rest name fuel :
  L st = v1 :: v2 :: rest →
  value_tostring v2 = Some name →
  langs st !! name = None →
  (BUFSIZE ≤ length (frame st))%nat →
  ∃ o st',
    tslua_add_language (S fuel) st = Exit o st'
    ∧ read_c_str (frame st')
      = string_of_list_ascii
          (take 127 (list_ascii_of_string ("tree_sitter_" +:+ name)))
    ∧ ((String.length ("tree_sitter_" +:+ name) < 128)%nat →
       read_c_str (frame st') = "tree_sitter_" +:+ name).
Proof.
  intros HL Hn Hreg Hbuf.
  destruct (run_unregistered st v1 v2 rest name fuel HL Hn Hreg)
    as (o & st' & Hrun & Hframe & _).
  exists o, st'. split; [done|]. rewrite Hframe. unfold derive_symbol.
  rewrite snprintf_read;
    [|unfold BUFSIZE; lia|done
     |apply format_s_nul_free, symbol_prefix_nul_free].
  rewrite format_s_app, (value_tostring_c_str _ _ Hn).
  split; [done|]. intros Hfits. rewrite take_ge.
  - apply string_of_list_ascii_of_string.
  - rewrite length_list_ascii_of_string. unfold BUFSIZE. lia.
Qed.

(** C7.  When ["tree_sitter_"] followed by the name has 128 characters
    or more, so that it does not fit the 128 bytes of [symbol_buf] with
    its terminating NUL, the buffer receives the first 127 characters and
    a NUL, and the memory above the buffer is what it was. *)
Theorem long_symbol_name_is_truncated st v1 v2 rest name buf above fuel :
  L st = v1 :: v2 :: rest →
  value_tostring v2 = Some name →
  langs st !! name = None →
  frame st = buf ++ above →
  length buf = BUFSIZE →
  (BUFSIZE ≤ String.length ("tree_sitter_" +:+ name))%nat →
  ∃ o st',
    tslua_add_language (S fuel) st = Exit o st'
    ∧ frame st'
      = (take 127 (list_ascii_of_string ("tree_sitter_" +:+ name)) ++ [NUL])
        ++ above.
Proof.
  intros HL Hn Hreg Hframe Hbuf Hlong.
  destruct (run_unregistered st v1 v2 rest name fuel HL Hn Hreg)
    as (o & st' & Hrun & Hframe' & _).
  exists o, st'. split; [done|]. rewrite Hframe', Hframe. unfold derive_symbol.
  rewrite snprintf_frame; [|done|unfold BUFSIZE; lia].
  rewrite format_s_app, (value_tostring_c_str _ _ Hn).
  change (BUFSIZE - 1)%nat with 127%nat.
  rewrite length_take_le
    by (rewrite length_list_ascii_of_string; unfold BUFSIZE in Hlong; lia).
  rewrite drop_ge by (rewrite Hbuf; unfold BUFSIZE; lia).
  by rewrite app_nil_r.
Qed.

(** C10.  Entered with [i = 0], the loop of lines 17-19 ends at its
    first test and leaves the state as it is; so a call that gets past
    the registry lookup ends with [cout] as it was at entry. *)
Theorem hello_loop_body_never_runs :
  (∀ fuel st, hello_loop (S fuel) 0 st = Next () st)
  ∧ (∀ st v1 v2 rest name fuel,
       L st = v1 :: v2 :: rest →
       value_tostring v2 = Some name →
       langs st !! name = None →
       ∃ o st', tslua_add_language (S fuel) st = Exit o st'
              ∧ cout st' = cout st).
Proof.
  split; [apply hello_loop_zero|].
  intros st v1 v2 rest name fuel HL Hn Hreg.
  destruct (run_unregistered st v1 v2 rest name fuel HL Hn Hreg)
    as (o & st' & Hrun & _ & Hcout).
  by exists o, st'.
Qed.

End Claims.

(** ** Every call: how it ends, what it leaves alone *)

Section Quiet.
Context `{host : Host}.

Implicit Types (st : State) (v : lua_value) (rest : lua_stack).

Lemma quiet_bind {A B} (m : M A) (f : A → M B) :
  ends_quietly m → (∀ a, ends_quietly (f a)) → ends_quietly (m ≫= f).
Proof.
  intros Hm Hf st. unfold mbind, M_bind.
  specialize (Hm st). destruct (m st) as [a st1|o st1|]; [|done..].
  specialize (Hf a st1). destruct (f a st1); [| |done].
  all: destruct Hm, Hf; split; congruence.
Qed.

Lemma exits_bind {A B} (m : M A) (f : A → M B) :
  ends_quietly m → (∀ a, exits_quietly (f a)) → exits_quietly (m ≫= f).
Proof.
  intros Hm Hf st. unfold mbind, M_bind.
  specialize (Hm st). destruct (m st) as [a st1|o st1|]; [| |done].
  - destruct (Hf a st1) as (o & st' & -> & Hl & Hc).
    destruct Hm. exists o, st'. split; [done|]. split; congruence.
  - by exists o, st1.
Qed.

Lemma quiet_ret {A} (a : A) : ends_quietly (mret a).
Proof. by intros st. Qed.

Lemma quiet_gets {A} (f : State → A) : ends_quietly (gets f).
Proof. by intros st. Qed.

Lemma quiet_exit {A} o : ends_quietly (exit (A := A) o).
Proof. by intros st. Qed.

Lemma exits_exit {A} o : exits_quietly (exit (A := A) o).
Proof. intros st. by exists o, st. Qed.

Lemma quiet_modify (f : State → State) :
  (∀ st, langs (f st) = langs st ∧ cout (f st) = cout st) →
  ends_quietly (modify f).
Proof. intros Hf st. apply Hf. Qed.

Lemma quiet_if {A} (b : bool) (m1 m2 : M A) :
  ends_quietly m1 → ends_quietly m2 → ends_quietly (if b then m1 else m2).
Proof. by destruct b. Qed.

Create HintDb quiet.
#[local] Hint Resolve quiet_ret quiet_gets quiet_exit quiet_if : quiet.
#[local] Hint Extern 1 (ends_quietly (modify _)) =>
  (apply quiet_modify; intros; split; reflexivity) : quiet.
#[local] Hint Extern 2 (ends_quietly (_ ≫= _)) =>
  (apply quiet_bind; [|intros]) : quiet.

Lemma quiet_lua_error {A} : ends_quietly (lua_error (A := A)).
Proof. unfold lua_error. auto with quiet. Qed.

Lemma quiet_luaL_error {A} msg : ends_quietly (luaL_error (A := A) msg).
Proof.
  unfold luaL_error, lua_pushstring. pose proof (@quiet_lua_error A).
  auto 6 with quiet.
Qed.

Lemma quiet_lua_tostring idx : ends_quietly (lua_tostring idx).
Proof.
  unfold lua_tostring. apply quiet_bind; [auto with quiet|]. intros stk.
  destruct (index2slot stk idx) as [slot|]; [|auto with quiet].
  destruct (stk !! slot); auto with quiet.
Qed.

Lemma quiet_uv_dlopen_call path : ends_quietly (uv_dlopen_call path).
Proof.
  unfold uv_dlopen_call. apply quiet_bind; [auto with quiet|]. intros w.
  destruct (uv_dlopen path w) as [[rc lib] w']. auto 6 with quiet.
Qed.

(** The loop of lines 17-19 as the function enters it. *)
Lemma quiet_hello_loop fuel : ends_quietly (hello_loop (S fuel) 0).
Proof. intros st. by rewrite hello_loop_zero. Qed.

Lemma tslua_add_language_exits_quietly fuel :
  exits_quietly (tslua_add_language (S fuel)).
Proof.
  pose proof (@quiet_lua_error Z). pose proof (@quiet_luaL_error ()).
  pose proof quiet_lua_tostring. pose proof (quiet_hello_loop fuel).
  pose proof quiet_uv_dlopen_call.
  unfold tslua_add_language, skip, pmap_has_cstr, c_string_arg,
    uv_dlerror_call, uv_disclose_call, lua_pushstring.
  repeat first
    [ assumption
    | apply exits_exit
    | apply exits_bind; [|intros]
    | apply quiet_bind; [|intros]
    | apply quiet_if
    | match goal with
      | |- ends_quietly (match ?x with _ => _ end) => destruct x
      | |- exits_quietly (match ?x with _ => _ end) => destruct x
      | |- exits_quietly (let '(_, _) := ?x in _) => destruct x
      end
    | solve [auto with quiet] ].
Qed.

(** X1.  Given fuel for one test of the loop, every call leaves the
    function, by a [return], a Lua error, a null pointer read or the
    closing brace, whatever the stack, the registry and the loader are;
    and the registry and [cout] are afterwards what they were before. *)
Theorem every_call_ends_registry_untouched fuel st :
  ∃ o st', tslua_add_language (S fuel) st = Exit o st'
         ∧ langs st' = langs st
         ∧ cout st' = cout st.
Proof. apply tslua_add_language_exits_quietly. Qed.

End Quiet.

(** ** Further paths and how calls compose *)

Section Further.
Context `{host : Host}.

Implicit Types (st : State) (v : lua_value) (rest : lua_stack).

Lemma isstring_first v1 v2 rest path :
  value_tostring v1 = Some path → lua_isstring (v1 :: v2 :: rest) 1 = true.
Proof.
  intros Hp. unfold lua_isstring, index2value.
  rewrite index2slot_first. simpl. by destruct v1.
Qed.

(** A string or number first, something else second: line 6 lets the
    call through and line 13 reads the null [lang_name]. *)
Lemma run_null_name st v1 v2 rest path fuel :
  L st = v1 :: v2 :: rest →
  value_tostring v1 = Some path →
  value_tostring v2 = None →
  tslua_add_language fuel st =
    Exit NullDeref (set_L (λ _, read_args v1 v2 rest) st).
Proof.
  intros HL Hp Hn.
  destruct st as [stk wh reg iob fr w ev co]. simpl in *. subst stk.
  unfold tslua_add_language. run.
  rewrite gettop_two, (isstring_first _ _ _ _ Hp). run.
  rewrite index2slot_first. run. rewrite index2slot_second. run.
  by rewrite Hn.
Qed.

(** [snprintf] into a buffer of [size] bytes keeps the buffer [size]
    bytes long and the memory above it as it is, whatever the text. *)
Lemma snprintf_within buf above size text :
  length buf = size → (0 < size)%nat →
  ∃ buf', (snprintf (buf ++ above) size text).1 = buf' ++ above
          ∧ length buf' = size.
Proof.
  intros Hlen Hpos. rewrite snprintf_frame by done.
  eexists. split; [done|].
  rewrite !length_app, length_drop, length_take. simpl. lia.
Qed.

Lemma filter_dlopen_snoc (ev : list event) path more :
  filter is_dlopen more = [] →
  filter is_dlopen (ev ++ EvDlopen path :: more)
  = filter is_dlopen ev ++ [EvDlopen path].
Proof.
  intros Hmore. rewrite filter_app, filter_cons_True by done.
  by rewrite Hmore.
Qed.

(** For a name that is not registered the library is opened once, on
    the first argument as C reads it, however the loader answers. *)
Lemma run_unregistered_opens st v1 v2 rest name fuel :
  L st = v1 :: v2 :: rest →
  value_tostring v2 = Some name →
  langs st !! name = None →
  ∃ o st', tslua_add_language (S fuel) st = Exit o st'
         ∧ filter is_dlopen (events st')
           = filter is_dlopen (events st) ++ [EvDlopen (value_tostring v1)].
Proof.
  intros HL Hn Hreg.
  destruct (uv_dlopen (value_tostring v1) (dl st)) as [[rc lib] w'] eqn:Hopen.
  destruct (decide (rc = 0)) as [->|Hrc].
  - eexists _, _. split; [by eapply run_load_ok|].
    cbn. by apply filter_dlopen_snoc.
  - eexists _, _. split; [by eapply run_load_failed|].
    cbn. by apply filter_dlopen_snoc.
Qed.

(** X2.  With two arguments or more, the call ends at line 7, raising
    the position of the caller followed by ["string expected"] with no
    other call made, exactly when neither the first nor the second
    argument is a string or a number. *)
Theorem string_expected_exactly_when st v1 v2 rest fuel :
  L st = v1 :: v2 :: rest →
  let v := LString (L_where st +:+ "string expected") in
  (∃ st', tslua_add_language (S fuel) st = Exit (Raised v) st'
        ∧ events st' = events st ++ [EvLuaError v])
  ↔ value_tostring v1 = None ∧ value_tostring v2 = None.
Proof.
  intros HL v. split.
  - intros (st' & Hrun & Hev).
    destruct (value_tostring v2) as [name|] eqn:Hn.
    + destruct (langs st !! name) as [h|] eqn:Hreg.
      * rewrite (run_registered st v1 v2 rest name) in Hrun by done.
        discriminate.
      * destruct (uv_dlopen (value_tostring v1) (dl st))
          as [[rc lib] w'] eqn:Hopen.
        destruct (decide (rc = 0)) as [->|Hrc].
        -- rewrite (run_load_ok st v1 v2 rest name lib w') in Hrun by done.
           discriminate.
        -- rewrite (run_load_failed st v1 v2 rest name rc lib w') in Hrun
             by done.
           cbv zeta in Hrun. injection Hrun as _ <-. cbn in Hev.
           apply app_inv_head in Hev. discriminate.
    + destruct (value_tostring v1) as [path|] eqn:Hp; [|done].
      rewrite (run_null_name st v1 v2 rest path) in Hrun by done.
      discriminate.
  - intros Hboth. eexists. split.
    + rewrite run_rejected; [reflexivity|].
      rewrite HL. by apply rejects_two_arguments.
    + reflexivity.
Qed.

(** X4.  A call for a name that is not registered calls [uv_dlopen]
    once, on the first argument as C reads it (null when it is neither
    a string nor a number), whether the load then succeeds or fails. *)
Theorem unregistered_name_opens_once st v1 v2 rest name fuel :
  L st = v1 :: v2 :: rest →
  value_tostring v2 = Some name →
  langs st !! name = None →
  ∃ o st', tslua_add_language (S fuel) st = Exit o st'
         ∧ filter is_dlopen (events st')
           = filter is_dlopen (events st) ++ [EvDlopen (value_tostring v1)].
Proof. apply run_unregistered_opens. Qed.


(** X6.  When [uv_dlopen] fails, the message is written inside the
    [IOSIZE] bytes of [IObuff] and nowhere above them; the error raised
    is the C string [IObuff] then holds, and it is the value on top of
    the Lua stack. *)
Theorem load_failure_message_stays_in_IObuff
    st v1 v2 rest name rc lib w' buf above fuel :
  L st = v1 :: v2 :: rest →
  value_tostring v2 = Some name →
  langs st !! name = None →
  uv_dlopen (value_tostring v1) (dl st) = (rc, lib, w') →
  rc ≠ 0 →
  IObuff st = buf ++ above →
  length buf = IOSIZE →
  (0 < IOSIZE)%nat →
  ∃ msg st' buf',
    tslua_add_language (S fuel) st = Exit (Raised (LString msg)) st'
    ∧ IObuff st' = buf' ++ above
    ∧ length buf' = IOSIZE
    ∧ msg = read_c_str (IObuff st')
    ∧ last (L st') = Some (LString msg).
Proof.
  intros HL Hn Hreg Hopen Hrc Hbuf Hlen Hpos.
  destruct (snprintf_within buf above IOSIZE
              (format_s "Failed to load parser: uv_dlopen: " (uv_dlerror lib))
              Hlen Hpos) as (buf' & Hbuf' & Hlen').
  eexists _, _, buf'. split; [by eapply run_load_failed|]. cbn.
  rewrite Hbuf. split; [done|]. split; [done|]. split; [done|].
  exact (last_snoc _ (read_args v1 v2 rest)).
Qed.

(** X7.  Whatever the length of the name, the call writes inside the
    128 bytes of [symbol_buf] only: the memory above them is afterwards
    what it was. *)
Theorem symbol_buf_is_never_overrun st v1 v2 rest name buf above fuel :
  L st = v1 :: v2 :: rest →
  value_tostring v2 = Some name →
  langs st !! name = None →
  frame st = buf ++ above →
  length buf = BUFSIZE →
  ∃ o st' buf',
    tslua_add_language (S fuel) st = Exit o st'
    ∧ frame st' = buf' ++ above
    ∧ length buf' = BUFSIZE.
Proof.
  intros HL Hn Hreg Hframe Hlen.
  destruct (run_unregistered st v1 v2 rest name fuel HL Hn Hreg)
    as (o & st' & Hrun & Hframe' & _).
  destruct (snprintf_within buf above BUFSIZE
              (format_s "tree_sitter_" name) Hlen) as (buf' & Hbuf' & Hlen');
    [unfold BUFSIZE; lia|].
  exists o, st', buf'. split; [done|]. split; [|done].
  rewrite Hframe', Hframe. exact Hbuf'.
Qed.

(** X8.  No call takes a name out of the registry: after any call, with
    any arguments, a call for a name that was registered before returns
    0 as before, finds the handle that was stored and calls nothing. *)
Theorem registered_name_survives_any_call
    st args v1 v2 rest name h fuel1 fuel2 :
  langs st !! name = Some h →
  value_tostring v2 = Some name →
  ∃ o st1 st2,
    call (S fuel1) args st = Exit o st1
    ∧ call fuel2 (v1 :: v2 :: rest) st1 = Exit (Returned 0) st2
    ∧ langs st2 !! name = Some h
    ∧ events st2 = events st1
    ∧ dl st2 = dl st1.
Proof.
  intros Hreg Hn. unfold call.
  destruct (tslua_add_language_exits_quietly fuel1 (set_L (λ _, args) st))
    as (o & st1 & Hrun & Hlangs & _).
  exists o, st1. eexists. split; [done|]. split.
  - eapply run_registered; [reflexivity|done|].
    cbn. rewrite Hlangs. cbn. by rewrite Hreg.
  - cbn. rewrite Hlangs. cbn. by rewrite Hreg.
Qed.

(** X9.  No call puts a name into the registry: after any call, with
    any arguments and however it ended, a call for a name that was not
    registered before calls [uv_dlopen] again and leaves the name
    unregistered. *)
Theorem unregistered_name_is_opened_on_every_call
    st args v1 v2 rest name fuel1 fuel2 :
  langs st !! name = None →
  value_tostring v2 = Some name →
  ∃ o1 st1 o2 st2,
    call (S fuel1) args st = Exit o1 st1
    ∧ call (S fuel2) (v1 :: v2 :: rest) st1 = Exit o2 st2
    ∧ filter is_dlopen (events st2)
      = filter is_dlopen (events st1) ++ [EvDlopen (value_tostring v1)]
    ∧ langs st2 !! name = None.
Proof.
  intros Hreg Hn. unfold call.
  destruct (tslua_add_language_exits_quietly fuel1 (set_L (λ _, args) st))
    as (o1 & st1 & Hrun1 & Hlangs1 & _).
  assert (Hreg1 : langs (set_L (λ _, v1 :: v2 :: rest) st1) !! name = None).
  { cbn. rewrite Hlangs1. cbn. done. }
  destruct (run_unregistered_opens (set_L (λ _, v1 :: v2 :: rest) st1)
              v1 v2 rest name fuel2 eq_refl Hn Hreg1)
    as (o2 & st2 & Hrun2 & Hev).
  exists o1, st1, o2, st2. split; [done|]. split; [done|]. split; [done|].
  destruct (tslua_add_language_exits_quietly fuel2
              (set_L (λ _, v1 :: v2 :: rest) st1))
    as (o2' & st2' & Hrun2' & Hlangs2 & _).
  rewrite Hrun2 in Hrun2'. injection Hrun2' as _ <-.
  by rewrite Hlangs2.
Qed.

(** X3.  A call with fewer than two arguments ends at line 7: the
    position of the caller followed by ["string expected"] is pushed and
    raised, and nothing else is called or written. *)
Theorem fewer_than_two_arguments_are_refused st fuel :
  lua_gettop (L st) < 2 →
  let v := LString (L_where st +:+ "string expected") in
  ∃ st', tslua_add_language fuel st = Exit (Raised v) st'
       ∧ events st' = events st ++ [EvLuaError v]
       ∧ L st' = L st ++ [v]
       ∧ langs st' = langs st
       ∧ dl st' = dl st
       ∧ frame st' = frame st
       ∧ IObuff st' = IObuff st.
Proof.
  intros Htop v. eexists. split.
  - rewrite run_rejected; [reflexivity|]. unfold rejects.
    by rewrite (isstring_above_top _ Htop), (proj2 (Z.ltb_lt _ _) Htop).
  - done.
Qed.

(** X10.  Arguments after the second are ignored: the call ends the way
    the call with the first two arguments alone ends, with the same
    calls made and the same memory written, and they are still on the
    stack, between the first two arguments and an error message if one
    was pushed. *)
Theorem further_arguments_are_ignored st v1 v2 rest fuel :
  L st = v1 :: v2 :: rest →
  ∃ o st2 st' a b top,
    call (S fuel) [v1; v2] st = Exit o st2
    ∧ tslua_add_language (S fuel) st = Exit o st'
    ∧ L st2 = a :: b :: top
    ∧ L st' = a :: b :: rest ++ top
    ∧ same_but_stack st' st2.
Proof.
  intros HL. unfold call, same_but_stack.
  set (st0 := set_L (λ _, [v1; v2]) st).
  assert (HL0 : L st0 = [v1; v2]) by done.
  destruct (value_tostring v2) as [name|] eqn:Hn.
  - destruct (langs st !! name) as [h|] eqn:Hreg.
    + rewrite (run_registered st0 v1 v2 [] name),
        (run_registered st v1 v2 rest name) by done.
      eexists _, _, _, _, _, []. repeat split; try done;
        first [cbn; by rewrite app_nil_r | by apply State_ext].
    + destruct (uv_dlopen (value_tostring v1) (dl st))
        as [[rc lib] w'] eqn:Hopen.
      destruct (decide (rc = 0)) as [->|Hrc].
      * rewrite (run_load_ok st0 v1 v2 [] name lib w'),
          (run_load_ok st v1 v2 rest name lib w') by done.
        eexists _, _, _, _, _, []. repeat split; try done;
          first [cbn; by rewrite app_nil_r | by apply State_ext].
      * rewrite (run_load_failed st0 v1 v2 [] name rc lib w'),
          (run_load_failed st v1 v2 rest name rc lib w') by done.
        eexists _, _, _, _, _, [_]. repeat split; try done;
          by apply State_ext.
  - destruct (value_tostring v1) as [path|] eqn:Hp.
    + rewrite (run_null_name st0 v1 v2 [] path),
        (run_null_name st v1 v2 rest path) by done.
      eexists _, _, _, _, _, []. repeat split; try done;
        first [cbn; by rewrite app_nil_r | by apply State_ext].
    + rewrite (run_rejected st0), (run_rejected st).
      * eexists _, _, _, _, _, [_]. repeat split; try done;
          first [cbn; by rewrite HL | apply State_ext; cbn; by rewrite ?HL].
      * rewrite HL. by apply rejects_two_arguments.
      * rewrite HL0. by apply rejects_two_arguments.
Qed.

End Further.

(** ** The function on the stub host *)

Section Examples.
#[local] Existing Instance Stub.host.

(** The loop does run its body when it is entered with [i] other than 0:
    from -1 the body runs once. *)
Example hello_loop_from_minus_one :
  hello_loop 2 (-1) Stub.start
  = Next () (put_cout [CoutInt 1701604463; CoutStr (String "010" "")]
               Stub.start).
Proof. reflexivity. Qed.

(** No arguments at all: the error of line 7. *)
Example no_arguments_rejected :
  let v := LString "string expected" in
  call 1 [] Stub.start
  = Exit (Raised v) (log (EvLuaError v) (set_L (λ _, [v]) Stub.start)).
Proof. reflexivity. Qed.

(** C1.  A call whose first argument is a boolean and whose second is a
    string is not refused: it goes on with a null [path], calls
    [uv_dlopen] on it and reaches the end of the function.  A call whose
    first argument is a string and whose second is a boolean is not
    refused either: it reads the null [lang_name] in the registry
    lookup. *)
Theorem nonstring_argument_is_accepted :
  call 1 [LBoolean true; LString "python"] Stub.start
  = Exit FellOffEnd
      (Stub.after [LBoolean true; LString "python"] "tree_sitter_python"
         [EvDlopen None] [4096])
  ∧ call 1 [LString "/usr/lib/libtspython.so"; LBoolean true] Stub.start
    = Exit NullDeref
        (set_L (λ _, [LString "/usr/lib/libtspython.so"; LBoolean true])
           Stub.start).
Proof. split; reflexivity. Qed.

(** C2.  With a name that is not registered and a loader that opens the
    library, the call reaches the end of the function without a
    [return]; the library is open and the registry is still empty. *)
Theorem successful_load_registers_nothing :
  let st' := Stub.after Stub.python_args "tree_sitter_python"
               [EvDlopen (Some "/usr/lib/libtspython.so")] [4096] in
  call 1 Stub.python_args Stub.start = Exit FellOffEnd st'
  ∧ langs st' !! "python" = None
  ∧ langs st' = ∅.
Proof. repeat split; reflexivity. Qed.

(** C6.  Two calls in a row with the same path and name, the loader
    opening the library both times: the library is opened twice, two
    handles are open and the registry is empty. *)
Theorem registering_twice_loads_twice :
  let opening := EvDlopen (Some "/usr/lib/libtspython.so") in
  let st1 := Stub.after Stub.python_args "tree_sitter_python"
               [opening] [4096] in
  let st2 := Stub.after Stub.python_args "tree_sitter_python"
               [opening; opening] [4097; 4096] in
  call 1 Stub.python_args Stub.start = Exit FellOffEnd st1
  ∧ call 1 Stub.python_args st1 = Exit FellOffEnd st2
  ∧ size (langs st2) = 0%nat
  ∧ events st2 = [opening; opening].
Proof. repeat split; reflexivity. Qed.

(** ["python"] is registered: a call with another path returns 0. *)
Lemma registered_name_returns_at_once_witness :
  ∃ st', tslua_add_language 0
           (set_L (λ _, [LString "/other/path.so"; LString "python"])
              Stub.with_python)
         = Exit (Returned 0) st'
       ∧ langs st' = langs Stub.with_python
       ∧ events st' = []
       ∧ dl st' = [].
Proof.
  apply (registered_name_returns_at_once
           (set_L (λ _, [LString "/other/path.so"; LString "python"])
              Stub.with_python)
           (LString "/other/path.so") (LString "python") [] "python" 0).
  - reflexivity.
  - reflexivity.
  - vm_compute. eexists. reflexivity.
Defined.

(** The scenario of the missing file. *)
Lemma load_failure_raises_diagnostic_witness :
  ∃ msg st',
    tslua_add_language 1
      (set_L (λ _, [LString "/no/such/file.so"; LString "python"]) Stub.start)
    = Exit (Raised (LString msg)) st'
    ∧ msg = "Failed to load parser: uv_dlopen: file not found"
    ∧ msg ≠ ""
    ∧ ((48 < 1025)%nat →
       msg = "Failed to load parser: uv_dlopen: file not found")
    ∧ langs st' = ∅
    ∧ langs st' !! "python" = None.
Proof.
  apply (load_failure_raises_diagnostic
           (set_L (λ _, [LString "/no/such/file.so"; LString "python"])
              Stub.start)
           (LString "/no/such/file.so") (LString "python") [] "python"
           (-1) {| handle := 0; errmsg := Some "file not found" |} [] 0).
  - reflexivity.
  - reflexivity.
  - reflexivity.
  - reflexivity.
  - lia.
  - vm_compute. lia.
Defined.

Lemma load_failure_releases_before_raising_witness :
  let lib := {| handle := 0; errmsg := Some "file not found" |} in
  ∃ v st',
    tslua_add_language 1
      (set_L (λ _, [LString "/no/such/file.so"; LString "python"]) Stub.start)
    = Exit (Raised v) st'
    ∧ events st' = [EvDlopen (Some "/no/such/file.so"); EvDlerror lib;
                    EvDisclose lib; EvLuaError v]
    ∧ dl st' = [].
Proof.
  apply (load_failure_releases_before_raising
           (set_L (λ _, [LString "/no/such/file.so"; LString "python"])
              Stub.start)
           (LString "/no/such/file.so") (LString "python") [] "python"
           (-1) {| handle := 0; errmsg := Some "file not found" |} [] 0).
  - reflexivity.
  - reflexivity.
  - reflexivity.
  - reflexivity.
  - lia.
Defined.

(** The name ["python"] gives the symbol ["tree_sitter_python"]. *)
Lemma symbol_name_is_prefix_and_name_witness :
  ∃ o st',
    tslua_add_language 1 (set_L (λ _, Stub.python_args) Stub.start) = Exit o st'
    ∧ read_c_str (frame st') = "tree_sitter_python"
    ∧ ((18 < 128)%nat → read_c_str (frame st') = "tree_sitter_python").
Proof.
  apply (symbol_name_is_prefix_and_name
           (set_L (λ _, Stub.python_args) Stub.start)
           (LString "/usr/lib/libtspython.so") (LString "python") []
           "python" 0).
  - reflexivity.
  - reflexivity.
  - reflexivity.
  - vm_compute. lia.
Defined.

(** A name of 120 characters: 127 characters and a NUL are stored, and
    the 32 bytes above the buffer keep their contents. *)
Lemma long_symbol_name_is_truncated_witness :
  ∃ o st',
    tslua_add_language 1
      (set_L (λ _, [LString "/usr/lib/x.so"; LString Stub.long_name])
         Stub.start)
    = Exit o st'
    ∧ frame st'
      = (list_ascii_of_string "tree_sitter_" ++ replicate 115 "a"%char
           ++ [NUL])
        ++ replicate 32 "?"%char.
Proof.
  apply (long_symbol_name_is_truncated
           (set_L (λ _, [LString "/usr/lib/x.so"; LString Stub.long_name])
              Stub.start)
           (LString "/usr/lib/x.so") (LString Stub.long_name) []
           Stub.long_name (replicate 128 "?"%char) (replicate 32 "?"%char) 0).
  - reflexivity.
  - reflexivity.
  - reflexivity.
  - reflexivity.
  - reflexivity.
  - vm_compute. lia.
Defined.

Lemma hello_loop_body_never_runs_witness :
  ∃ o st',
    tslua_add_language 1 (set_L (λ _, Stub.python_args) Stub.start) = Exit o st'
    ∧ cout st' = [].
Proof.
  apply (proj2 hello_loop_body_never_runs
           (set_L (λ _, Stub.python_args) Stub.start)
           (LString "/usr/lib/libtspython.so") (LString "python") []
           "python" 0%nat).
  - reflexivity.
  - reflexivity.
  - reflexivity.
Defined.

End Examples.

(** ** Further runs on the stub host *)

Section FurtherExamples.
#[local] Existing Instance Stub.host.

(** A boolean and [nil]: refused. *)
Lemma string_expected_exactly_when_witness :
  (∃ st', tslua_add_language 1
            (set_L (λ _, [LBoolean true; LNil]) Stub.start)
          = Exit (Raised (LString "string expected")) st'
        ∧ events st' = [EvLuaError (LString "string expected")])
  ↔ value_tostring (LBoolean true) = None ∧ value_tostring LNil = None.
Proof.
  apply (string_expected_exactly_when
           (set_L (λ _, [LBoolean true; LNil]) Stub.start)
           (LBoolean true) LNil [] 0%nat).
  reflexivity.
Defined.

(** One argument only. *)
Lemma fewer_than_two_arguments_are_refused_witness :
  let st := set_L (λ _, [LString "/usr/lib/libtspython.so"]) Stub.start in
  let v := LString "string expected" in
  ∃ st', tslua_add_language 0 st = Exit (Raised v) st'
       ∧ events st' = [EvLuaError v]
       ∧ L st' = [LString "/usr/lib/libtspython.so"; v]
       ∧ langs st' = ∅
       ∧ dl st' = []
       ∧ frame st' = frame Stub.start
       ∧ IObuff st' = IObuff Stub.start.
Proof.
  apply (fewer_than_two_arguments_are_refused
           (set_L (λ _, [LString "/usr/lib/libtspython.so"]) Stub.start)
           0%nat).
  reflexivity.
Defined.

Lemma unregistered_name_opens_once_witness :
  ∃ o st',
    tslua_add_language 1 (set_L (λ _, Stub.python_args) Stub.start)
    = Exit o st'
    ∧ filter is_dlopen (events st')
      = [EvDlopen (Some "/usr/lib/libtspython.so")].
Proof.
  apply (unregistered_name_opens_once
           (set_L (λ _, Stub.python_args) Stub.start)
           (LString "/usr/lib/libtspython.so") (LString "python") []
           "python" 0%nat).
  - reflexivity.
  - reflexivity.
  - reflexivity.
Defined.


(** The missing file, with five bytes of other data above [IObuff]. *)
Lemma load_failure_message_stays_in_IObuff_witness :
  let st := set_IObuff (λ buf, buf ++ list_ascii_of_string "above")
              (set_L (λ _, [LString "/no/such/file.so"; LString "python"])
                 Stub.start) in
  ∃ msg st' buf',
    tslua_add_language 1 st = Exit (Raised (LString msg)) st'
    ∧ IObuff st' = buf' ++ list_ascii_of_string "above"
    ∧ length buf' = 1025%nat
    ∧ msg = read_c_str (IObuff st')
    ∧ last (L st') = Some (LString msg).
Proof.
  apply (load_failure_message_stays_in_IObuff
           (set_IObuff (λ buf, buf ++ list_ascii_of_string "above")
              (set_L (λ _, [LString "/no/such/file.so"; LString "python"])
                 Stub.start))
           (LString "/no/such/file.so") (LString "python") [] "python"
           (-1) {| handle := 0; errmsg := Some "file not found" |} []
           (replicate 1025 NUL) (list_ascii_of_string "above") 0%nat).
  - reflexivity.
  - reflexivity.
  - reflexivity.
  - reflexivity.
  - lia.
  - reflexivity.
  - reflexivity.
  - vm_compute. lia.
Defined.

Lemma symbol_buf_is_never_overrun_witness :
  ∃ o st' buf',
    tslua_add_language 1 (set_L (λ _, Stub.python_args) Stub.start)
    = Exit o st'
    ∧ frame st' = buf' ++ replicate 32 "?"%char
    ∧ length buf' = 128%nat.
Proof.
  apply (symbol_buf_is_never_overrun
           (set_L (λ _, Stub.python_args) Stub.start)
           (LString "/usr/lib/libtspython.so") (LString "python") []
           "python" (replicate 128 "?"%char) (replicate 32 "?"%char) 0%nat).
  - reflexivity.
  - reflexivity.
  - reflexivity.
  - reflexivity.
  - reflexivity.
Defined.

(** ["python"] is registered; a refused call, then a call for it. *)
Lemma registered_name_survives_any_call_witness :
  ∃ o st1 st2,
    call 1 [] Stub.with_python = Exit o st1
    ∧ call 0 [LString "/other/path.so"; LString "python"] st1
      = Exit (Returned 0) st2
    ∧ langs st2 !! "python" = Some 8192
    ∧ events st2 = events st1
    ∧ dl st2 = dl st1.
Proof.
  apply (registered_name_survives_any_call Stub.with_python []
           (LString "/other/path.so") (LString "python") [] "python" 8192
           0%nat 0%nat).
  - reflexivity.
  - reflexivity.
Defined.

(** The same registration asked for twice. *)
Lemma unregistered_name_is_opened_on_every_call_witness :
  ∃ o1 st1 o2 st2,
    call 1 Stub.python_args Stub.start = Exit o1 st1
    ∧ call 1 Stub.python_args st1 = Exit o2 st2
    ∧ filter is_dlopen (events st2)
      = filter is_dlopen (events st1)
        ++ [EvDlopen (Some "/usr/lib/libtspython.so")]
    ∧ langs st2 !! "python" = None.
Proof.
  apply (unregistered_name_is_opened_on_every_call Stub.start
           Stub.python_args
           (LString "/usr/lib/libtspython.so") (LString "python") []
           "python" 0%nat 0%nat).
  - reflexivity.
  - reflexivity.
Defined.

(** Two arguments too many. *)
Lemma further_arguments_are_ignored_witness :
  let more := [LNil; LBoolean false] in
  ∃ o st2 st' a b top,
    call 1 Stub.python_args Stub.start = Exit o st2
    ∧ tslua_add_language 1
        (set_L (λ _, Stub.python_args ++ more) Stub.start)
      = Exit o st'
    ∧ L st2 = a :: b :: top
    ∧ L st' = a :: b :: more ++ top
    ∧ same_but_stack st' st2.
Proof.
  apply (further_arguments_are_ignored
           (set_L (λ _, Stub.python_args ++ [LNil; LBoolean false])
              Stub.start)
           (LString "/usr/lib/libtspython.so") (LString "python")
           [LNil; LBoolean false] 0%nat).
  reflexivity.
Defined.

End FurtherExamples.
